(** * local-cache: key resolution, validation and archive transport

    A shallow embedding of [src/cache.ts] and proofs about it.

    Conventions of the embedding.
    - A JavaScript string is a [string]; [String.length] stands for the
      [.length] property.  Numbers that the code only compares
      ([mtimeMs], the comparator's result, [indexOf]) are [Z].
    - [fg.Entry] and [fs.Stats] are records; an optional member
      ([stats?]) is an [option].
    - An [async] function is a state-and-exception computation over a
      [World]: the part of the host the code reads or changes.  A rejected
      promise is a [Thrown] outcome; the world reached so far is kept.
    - The npm packages and Node modules whose results the code uses
      ([filenamify], [fast-glob], [path]), and what the shell behind
      [exec] and the file system do with a command line and a path, are
      members of the class [Imports]; every general theorem holds for all
      of them.  A concrete instance, used for the closed examples, is
      given in [Module Node].
    - The log ([core.info], [core.warning]) is left out. *)

From Stdlib Require Import String Ascii List ZArith Bool Lia Arith.
Import ListNotations.
Open Scope string_scope.
Open Scope Z_scope.

Set Implicit Arguments.

(** ** Strings *)

Module JsString.

(** [s.startsWith(pat)] *)
Fixpoint startsWith (pat s : string) : bool :=
  match pat, s with
  | EmptyString, _ => true
  | String a pat', String b s' => Ascii.eqb a b && startsWith pat' s'
  | String _ _, EmptyString => false
  end.

(** [s.indexOf(pat)]: the least position at which [pat] occurs in [s],
    [-1] when there is none. *)
Fixpoint indexOfFrom (pat s : string) (i : Z) : Z :=
  if startsWith pat s then i
  else match s with
       | EmptyString => -1
       | String _ s' => indexOfFrom pat s' (i + 1)
       end.

Definition indexOf (s pat : string) : Z := indexOfFrom pat s 0.

(** [s] has a character for which [p] holds *)
Fixpoint any (p : ascii -> bool) (s : string) : bool :=
  match s with
  | EmptyString => false
  | String a s' => p a || any p s'
  end.

Definition isEmpty (s : string) : bool :=
  match s with EmptyString => true | String _ _ => false end.

End JsString.
Import JsString.

(** ** Arrays *)

Module JsArray.
Section Sort.
Variable A : Type.
(** The comparator of [Array.prototype.sort]: positive when the first
    argument goes after the second. *)
Variable compareFn : A -> A -> Z.

Fixpoint insert (x : A) (l : list A) : list A :=
  match l with
  | [] => [x]
  | y :: l' => if 0 <? compareFn x y then y :: insert x l' else x :: l
  end.

(** [Array.prototype.sort] is stable (ECMAScript 2019): elements that
    compare equal keep their order.  Insertion from the right, each
    element going before the first one it is not greater than, is
    such a sort. *)
Fixpoint sort (l : list A) : list A :=
  match l with
  | [] => []
  | x :: l' => insert x (sort l')
  end.
End Sort.

(** [Array.prototype.pop]: the last element ([undefined] on an empty
    array) and the array without it. *)
Definition pop (A : Type) (l : list A) : option A * list A :=
  match rev l with
  | [] => (None, [])
  | x :: r => (Some x, rev r)
  end.
End JsArray.
Import JsArray.

(** ** Data model *)

Module Fg.
(** [fs.Stats], the member the code reads *)
Record Stats : Type := mkStats { mtimeMs : Z }.

(** [fg.Entry] in object mode: [name] is the file's name, [path] its
    path from [cwd]. *)
Record Entry : Type := mkEntry {
  name : string;
  path : string;
  stats : option Stats
}.
End Fg.
Import Fg.

(** The error classes of the module, and the rejection of [execAsync]. *)
Inductive Error : Type :=
| ReserveCacheError (message : string)
| ValidationError (message : string)
| ExecError (cmd : string).

(** ** The locator (pure part) *)

(** [cacheFile.name.indexOf(filenameMatcher) !== -1] *)
Definition nameHasMatcher (filenameMatcher : string) (cacheFile : Entry) : bool :=
  negb (indexOf (name cacheFile) filenameMatcher =? -1).

(** The inner [for] of [filterCacheFiles]: pushes onto [potentialCaches]. *)
Fixpoint pushMatching (filenameMatcher : string) (cacheFiles potentialCaches : list Entry)
  : list Entry :=
  match cacheFiles with
  | [] => potentialCaches
  | cacheFile :: rest =>
      if nameHasMatcher filenameMatcher cacheFile
      then pushMatching filenameMatcher rest (potentialCaches ++ [cacheFile])
      else pushMatching filenameMatcher rest potentialCaches
  end.

(** The outer [for] of [filterCacheFiles], with the array it fills. *)
Fixpoint filterCacheFilesFrom (filenameMatchers : list string) (cacheFiles potentialCaches : list Entry)
  : option string * list Entry :=
  match filenameMatchers with
  | [] => (None, potentialCaches)
  | filenameMatcher :: rest =>
      let potentialCaches' := pushMatching filenameMatcher cacheFiles potentialCaches in
      if (0 <? Z.of_nat (length potentialCaches'))
      then (Some filenameMatcher, potentialCaches')
      else filterCacheFilesFrom rest cacheFiles potentialCaches'
  end.

Definition filterCacheFiles (filenameMatchers : list string) (cacheFiles : list Entry)
  : option string * list Entry :=
  filterCacheFilesFrom filenameMatchers cacheFiles [].

(** [e.stats?.mtimeMs || 0] *)
Definition mtimeOf (e : Entry) : Z :=
  match stats e with
  | Some s => if mtimeMs s =? 0 then 0 else mtimeMs s
  | None => 0
  end.

(** The comparator passed to [sort] *)
Definition byMtime (a b : Entry) : Z :=
  let mtimeA := mtimeOf a in
  let mtimeB := mtimeOf b in
  if mtimeB <? mtimeA then 1 else if mtimeA <? mtimeB then -1 else 0.

(** [potentialCaches.sort(...).pop()] *)
Definition latestCacheFile (potentialCaches : list Entry) : option Entry :=
  fst (pop (sort byMtime potentialCaches)).

(** [!key] for [key : string | null] *)
Definition falsyKey (key : option string) : bool :=
  match key with
  | None => true
  | Some k => isEmpty k
  end.

Definition locateCacheFile (filenameMatchers : list string) (cacheFiles : list Entry)
  : option (string * Entry) :=
  let '(key, potentialCaches) := filterCacheFiles filenameMatchers cacheFiles in
  if negb (0 <? Z.of_nat (length potentialCaches)) || falsyKey key then None
  else
    match latestCacheFile potentialCaches, key with
    | Some cacheFile, Some k => Some (k, cacheFile)
    | _, _ => None
    end.

(** ** Imported packages *)

(** What [cache.ts] imports and calls; none of it is code of the
    repository.
    - [filenamify key]: the package's default export at default options.
    - [globSelects patterns name]: whether [fast-glob], given [patterns]
      and the options [onlyFiles], [unique], lists the regular file called
      [name] that lies directly in [cwd].
    - [join], [dirname], [basename]: Node's [path] module.
    - [shellCreates cmd]: [exec] of [child_process] hands the command
      line to the shell; this is the directory and the name of the
      regular file that the shell's output redirection creates or
      truncates when it reads [cmd], if it creates one.
    - [sameDirectory a b]: whether the file system resolves the two paths
      to one directory. *)
Class Imports : Type := {
  filenamify : string -> string;
  globSelects : list string -> string -> bool;
  join : string -> string -> string;
  dirname : string -> string;
  basename : string -> string;
  shellCreates : string -> option (string * string);
  sameDirectory : string -> string -> bool
}.

(** ** The host *)

(** Which of its three command lines the module hands to [exec]; the
    arguments are the values interpolated into it.  What the command line
    does to the files is not read off this label but off the command line
    itself, see [runJob]. *)
Inductive ShellJob : Type :=
| MakeDirs (dir : string)
    (* mkdir -p dir *)
| PackTo (baseDir folderName cacheDir cacheName : string)
    (* tar cf - -C baseDir folderName | lz4 -v > cacheDir/cacheName *)
| UnpackFrom (cachePath baseDir : string).
    (* lz4 -d -v -c cachePath | tar xf - -C baseDir *)

Record World : Type := mkWorld {
  (** [process.env.CACHE_DIR], [process.env.GITHUB_REPOSITORY] *)
  CACHE_DIR : option string;
  GITHUB_REPOSITORY : option string;
  (** the regular files lying directly in a directory, in the order a scan
      of the directory meets them; a directory that does not exist has
      none *)
  files : string -> list Entry;
  (** the time a file written now is stamped with *)
  now : Z;
  (** whether the shell ends this command line with exit status 0 *)
  exitsZero : string -> bool;
  (** the command lines given to [exec] so far, oldest first, each with
      what it does *)
  spawned : list (string * ShellJob)
}.

(** Writing a file: an existing file of that name is replaced where it
    stands, a new one comes last. *)
Fixpoint putEntry (e : Entry) (l : list Entry) : list Entry :=
  match l with
  | [] => [e]
  | x :: l' => if String.eqb (name x) (name e) then e :: l' else x :: putEntry e l'
  end.

Section Host.
Context {imports : Imports}.

(** A file written in the directory [dir] shows in the listing of every
    path that names that directory. *)
Definition writeFile (dir : string) (e : Entry) (fs : string -> list Entry)
  : string -> list Entry :=
  fun d => if sameDirectory d dir then putEntry e (fs d) else fs d.

(** The change a command line makes to the directories the scan reads.
    [mkdir -p] makes directories, no regular file.  The pack command line
    leaves the file that the shell's redirection creates when it reads
    the command line as the module has built it, with the interpolated
    path as the shell splits it; the shell opens that file before the
    tools run, so it is there whatever the exit status.  What the unpack
    command line writes under [baseDir] is not part of [files]; [spawned]
    keeps the record of it. *)
Definition runJob (cmd : string) (job : ShellJob) (w : World) : string -> list Entry :=
  match job with
  | MakeDirs _ => files w
  | PackTo _ _ _ _ =>
      match shellCreates cmd with
      | Some (dir, fileName) =>
          writeFile dir (mkEntry fileName fileName (Some (mkStats (now w)))) (files w)
      | None => files w
      end
  | UnpackFrom _ _ => files w
  end.

(** The world once a command line has run *)
Definition spawn (cmd : string) (job : ShellJob) (w : World) : World :=
  mkWorld (CACHE_DIR w) (GITHUB_REPOSITORY w) (runJob cmd job w) (now w)
    (exitsZero w) (spawned w ++ [(cmd, job)]).

End Host.

(** ** Computations *)

Inductive Outcome (A : Type) : Type :=
| Returned (a : A)
| Thrown (e : Error).
Arguments Returned {A} a.
Arguments Thrown {A} e.

Definition Action (A : Type) : Type := World -> Outcome A * World.

Definition ret {A : Type} (a : A) : Action A := fun w => (Returned a, w).

Definition throw {A : Type} (e : Error) : Action A := fun w => (Thrown e, w).

Definition bind {A B : Type} (m : Action A) (k : A -> Action B) : Action B :=
  fun w =>
    match m w with
    | (Returned a, w') => k a w'
    | (Thrown e, w') => (Thrown e, w')
    end.

Declare Scope action_scope.
Delimit Scope action_scope with action.
Notation "x <- m ;; k" := (bind m (fun x => k))
  (at level 61, m at next level, right associativity) : action_scope.
Notation "m ;; k" := (bind m (fun _ => k))
  (at level 61, right associativity) : action_scope.
Open Scope action_scope.

(** [execAsync(cmd)], awaited: the command line is run to its end; a
    non-zero exit status rejects the promise.  [job] says what the command
    line does. *)
Definition execAsync {imports : Imports} (cmd : string) (job : ShellJob) : Action unit :=
  fun w =>
    (if exitsZero w cmd then Returned tt else Thrown (ExecError cmd),
     spawn cmd job w).

(** [streamOutputUntilResolved(promise)] hangs the relay of the child's
    output to the log on the promise and returns the promise. *)
Definition streamOutputUntilResolved {A : Type} (promise : Action A) : Action A :=
  promise.

(** ** [cache.ts] *)

Section Cache.
Context {imports : Imports}.

(** [paths] may be absent at run time, whatever its declared type. *)
Definition checkPaths (paths : option (list string)) : Action unit :=
  match paths with
  | None | Some [] =>
      throw (ValidationError
        "Path Validation Error: At least one directory or file path is required")
  | Some (_ :: _) => ret tt
  end.

(** [/^[^,]*$/.test(key)] *)
Definition commaFree (key : string) : bool :=
  negb (any (Ascii.eqb ",") key).

Definition checkKey (key : string) : Action unit :=
  if (255 <? String.length key)%nat then
    throw (ValidationError
      ("Key Validation Error: " ++ key ++ " cannot be larger than 255 characters."))
  else if negb (commaFree key) then
    throw (ValidationError
      ("Key Validation Error: " ++ key ++ " cannot contain commas."))
  else ret tt.

(** [v || d] for an environment variable *)
Definition orDefault (v : option string) (d : string) : string :=
  match v with
  | Some s => if isEmpty s then d else s
  | None => d
  end.

Definition getCacheDirPath : Action string :=
  fun w =>
    (Returned (join (orDefault (CACHE_DIR w) "/media/cache/")
                    (orDefault (GITHUB_REPOSITORY w) "")), w).

(** [fg(patterns, { cwd, objectMode, onlyFiles, stats, unique })] *)
Definition fg (patterns : list string) (cwd : string) : Action (list Entry) :=
  fun w =>
    (Returned (filter (fun e => globSelects patterns (name e)) (files w cwd)), w).

(** [paths[0]], read after [checkPaths] has passed *)
Definition firstPath (paths : option (list string)) : string :=
  match paths with
  | Some (p :: _) => p
  | _ => ""
  end.

(** [Array.isArray(restoreKeys) && restoreKeys.length
      ? [primaryKey, ...restoreKeys] : [primaryKey]] *)
Definition candidateKeys (primaryKey : string) (restoreKeys : option (list string))
  : list string :=
  match restoreKeys with
  | Some (r :: rs) => primaryKey :: r :: rs
  | _ => [primaryKey]
  end.

Definition restoreCache (paths : option (list string)) (primaryKey : string)
    (restoreKeys : option (list string)) : Action (option string) :=
  checkKey primaryKey ;;
  checkPaths paths ;;
  let path := firstPath paths in
  cacheDir <- getCacheDirPath ;;
  let filenameMatchers := map filenamify (candidateKeys primaryKey restoreKeys) in
  let patterns := map (fun matcher => matcher ++ "*") filenameMatchers in
  cacheFiles <- fg patterns cacheDir ;;
  match locateCacheFile filenameMatchers cacheFiles with
  | None => ret None
  | Some (key, cacheFile) =>
      let cachePath := join cacheDir (Fg.path cacheFile) in
      let baseDir := dirname path in
      let cmd := "lz4 -d -v -c " ++ cachePath ++ " 2>/dev/null | tar xf - -C " ++ baseDir in
      let createCacheDirPromise := execAsync cmd (UnpackFrom cachePath baseDir) in
      streamOutputUntilResolved createCacheDirPromise ;;
      ret (Some key)
  end.

Definition saveCache (paths : option (list string)) (key : string) : Action Z :=
  checkPaths paths ;;
  checkKey key ;;
  let path := firstPath paths in
  cacheDir <- getCacheDirPath ;;
  let cacheName := filenamify key ++ ".tar.lz4" in
  let cachePath := join cacheDir cacheName in
  let baseDir := dirname path in
  let folderName := basename path in
  let mkdirPromise := execAsync ("mkdir -p " ++ cacheDir) (MakeDirs cacheDir) in
  streamOutputUntilResolved mkdirPromise ;;
  let cmd := "tar cf - -C " ++ baseDir ++ " " ++ folderName
               ++ " | lz4 -v > " ++ cachePath ++ " 2>/dev/null" in
  let createCacheDirPromise :=
    execAsync cmd (PackTo baseDir folderName cacheDir cacheName) in
  streamOutputUntilResolved createCacheDirPromise ;;
  ret 420.

End Cache.

(** ** A concrete host: Node's [path], [filenamify] and [fast-glob]

    Models of the imported packages, after their documentation and their
    published sources, for running the code on concrete inputs.  The
    general theorems do not depend on them. *)

Module Node.

Definition chars (s : string) : list ascii := list_ascii_of_string s.
Definition str (l : list ascii) : string := string_of_list_ascii l.
Definition code (c : ascii) : nat := nat_of_ascii c.
Definition slash : ascii := "/"%char.
Definition dot : ascii := "."%char.
Definition bang : ascii := "!"%char.

(** *** [path] (posix) *)

Fixpoint splitOn (sep : ascii) (l : list ascii) : list (list ascii) :=
  match l with
  | [] => [[]]
  | c :: l' =>
      if Ascii.eqb c sep then [] :: splitOn sep l'
      else match splitOn sep l' with
           | seg :: segs => (c :: seg) :: segs
           | [] => [[c]]
           end
  end.

Definition isDot (seg : list ascii) : bool :=
  match seg with [c] => Ascii.eqb c dot | _ => false end.

Definition isDotDot (seg : list ascii) : bool :=
  match seg with [c; d] => Ascii.eqb c dot && Ascii.eqb d dot | _ => false end.

(** [normalizeString]: the segments kept, last one first *)
Fixpoint resolveSegments (allowAboveRoot : bool) (segs kept : list (list ascii))
  : list (list ascii) :=
  match segs with
  | [] => kept
  | seg :: rest =>
      if match seg with [] => true | _ => isDot seg end
      then resolveSegments allowAboveRoot rest kept
      else if isDotDot seg then
        match kept with
        | top :: kept' =>
            if isDotDot top then resolveSegments allowAboveRoot rest (seg :: kept)
            else resolveSegments allowAboveRoot rest kept'
        | [] =>
            if allowAboveRoot then resolveSegments allowAboveRoot rest [seg]
            else resolveSegments allowAboveRoot rest []
        end
      else resolveSegments allowAboveRoot rest (seg :: kept)
  end.

Fixpoint joinWith (sep : ascii) (segs : list (list ascii)) : list ascii :=
  match segs with
  | [] => []
  | [seg] => seg
  | seg :: rest => (seg ++ sep :: joinWith sep rest)%list
  end.

Definition normalize (p : string) : string :=
  match chars p with
  | [] => "."
  | (c :: _) as l =>
      let isAbsolute := Ascii.eqb c slash in
      let trailingSeparator :=
        match rev l with d :: _ => Ascii.eqb d slash | [] => false end in
      let body :=
        joinWith slash (rev (resolveSegments (negb isAbsolute) (splitOn slash l) [])) in
      match body with
      | [] => if isAbsolute then "/" else if trailingSeparator then "./" else "."
      | _ =>
          let body' := if trailingSeparator then (body ++ [slash])%list else body in
          str (if isAbsolute then slash :: body' else body')
      end
  end.

Definition join (a b : string) : string :=
  match isEmpty a, isEmpty b with
  | true, true => "."
  | true, false => normalize b
  | false, true => normalize a
  | false, false => normalize (a ++ "/" ++ b)
  end.

Fixpoint dropWhile (p : ascii -> bool) (l : list ascii) : list ascii :=
  match l with
  | [] => []
  | c :: l' => if p c then dropWhile p l' else l
  end.

Fixpoint takeWhile (p : ascii -> bool) (l : list ascii) : list ascii :=
  match l with
  | [] => []
  | c :: l' => if p c then c :: takeWhile p l' else []
  end.

Definition isSlash (c : ascii) : bool := Ascii.eqb c slash.

(** [dirname]: the scan from the end stops at index 1, so the first
    character is kept apart. *)
Definition dirname (p : string) : string :=
  match chars p with
  | [] => "."
  | c :: tl =>
      let hasRoot := isSlash c in
      let afterName :=
        dropWhile (fun d => negb (isSlash d)) (dropWhile isSlash (rev tl)) in
      match afterName with
      | [] => if hasRoot then "/" else "."
      | _ :: before =>
          match before with
          | [] => if hasRoot then "//" else str [c]
          | _ => str (c :: rev before)
          end
      end
  end.

Definition basename (p : string) : string :=
  str (rev (takeWhile (fun d => negb (isSlash d)) (dropWhile isSlash (rev (chars p))))).

(** *** [filenamify], default options (replacement [!], length 100) *)

(** [filename-reserved-regex]: less-than, greater-than, colon, double
    quote, slash, backslash, bar, question mark, asterisk, and U+0000 to
    U+001F *)
Definition reservedChar (c : ascii) : bool :=
  existsb (Nat.eqb (code c)) [60; 62; 58; 34; 47; 92; 124; 63; 42]%nat
  || (code c <? 32)%nat.

(** U+0000 to U+001F and U+0080 to U+009F *)
Definition controlChar (c : ascii) : bool :=
  (code c <? 32)%nat || ((128 <=? code c) && (code c <=? 159))%nat.

Definition replaceChars (p : ascii -> bool) (l : list ascii) : list ascii :=
  map (fun c => if p c then bang else c) l.

Definition isDotChar (c : ascii) : bool := Ascii.eqb c dot.
Definition isBang (c : ascii) : bool := Ascii.eqb c bang.

(** [/^\.+/] replaced by the replacement *)
Definition replaceLeadingPeriods (l : list ascii) : list ascii :=
  match l with
  | c :: _ => if isDotChar c then bang :: dropWhile isDotChar l else l
  | [] => []
  end.

(** [/\.+$/] removed *)
Definition dropTrailingPeriods (l : list ascii) : list ascii :=
  rev (dropWhile isDotChar (rev l)).

(** [trim-repeated]: a run of two or more replacements becomes one *)
Fixpoint trimRepeated (l : list ascii) : list ascii :=
  match l with
  | [] => []
  | c :: l' =>
      if isBang c then
        match trimRepeated l' with
        | (d :: _) as r => if isBang d then r else c :: r
        | [] => [c]
        end
      else c :: trimRepeated l'
  end.

(** [strip-outer]: the replacement removed at the start and at the end *)
Definition stripOuter (l : list ascii) : list ascii :=
  let l1 := match l with c :: l' => if isBang c then l' else l | [] => [] end in
  match rev l1 with
  | c :: r => if isBang c then rev r else l1
  | [] => []
  end.

Definition lower (c : ascii) : ascii :=
  if ((65 <=? code c) && (code c <=? 90))%nat then ascii_of_nat (code c + 32) else c.

Definition isDigit (c : ascii) : bool := ((48 <=? code c) && (code c <=? 57))%nat.

(** [/^(con|prn|aux|nul|com[0-9]|lpt[0-9])$/i] *)
Definition windowsName (l : list ascii) : bool :=
  let s := str (map lower l) in
  existsb (String.eqb s) ["con"; "prn"; "aux"; "nul"]
  || match map lower l with
     | [a; b; c; d] =>
         isDigit d && existsb (String.eqb (str [a; b; c])) ["com"; "lpt"]
     | _ => false
     end.

Definition filenamify (s : string) : string :=
  let l := replaceChars reservedChar (chars s) in
  let l := replaceChars controlChar l in
  let l := replaceLeadingPeriods l in
  let l := dropTrailingPeriods l in
  let l := trimRepeated l in
  let l := if (1 <? length l)%nat then stripOuter l else l in
  let l := if windowsName l then (l ++ [bang])%list else l in
  str (firstn 100 l).

(** *** [fast-glob]

    Patterns are read with the asterisk (any run of characters other
    than a slash), the question mark (one such character) and the
    bracket class ([[abc]], [[a-z]], negated by a leading exclamation
    mark or caret; a bracket that is never closed stands for itself);
    every other character stands for itself.  A name that starts with a
    period is not matched by a pattern that starts with a wildcard
    (option [dot], off by default). *)

Inductive Token : Type :=
| Lit (c : ascii)
| Star
| Quest
| Class (body : list ascii).

Definition plainToken (c : ascii) : Token :=
  if Ascii.eqb c "*"%char then Star
  else if Ascii.eqb c "?"%char then Quest
  else Lit c.

(** [opened] holds, last first, the characters read since an open
    bracket. *)
Fixpoint tokens (pattern : list ascii) (opened : option (list ascii)) : list Token :=
  match pattern, opened with
  | [], None => []
  | [], Some body => Lit "["%char :: map plainToken (rev body)
  | c :: pattern', None =>
      if Ascii.eqb c "["%char then tokens pattern' (Some [])
      else plainToken c :: tokens pattern' None
  | c :: pattern', Some body =>
      if Ascii.eqb c "]"%char && negb (Nat.eqb (length body) 0)
      then Class (rev body) :: tokens pattern' None
      else tokens pattern' (Some (c :: body))
  end.

Fixpoint inClassItems (c : ascii) (items : list ascii) : bool :=
  match items with
  | lo :: rest =>
      match rest with
      | dash :: hi :: rest' =>
          if Ascii.eqb dash "-"%char
          then ((code lo <=? code c) && (code c <=? code hi))%nat || inClassItems c rest'
          else Ascii.eqb c lo || inClassItems c rest
      | _ => Ascii.eqb c lo || inClassItems c rest
      end
  | [] => false
  end.

Definition inClass (c : ascii) (body : list ascii) : bool :=
  match body with
  | n :: items =>
      if Ascii.eqb n "!"%char || Ascii.eqb n "^"%char
      then negb (inClassItems c items)
      else inClassItems c body
  | [] => false
  end.

Fixpoint tokensMatch (pattern : list Token) (name : list ascii) : bool :=
  match pattern with
  | [] => match name with [] => true | _ => false end
  | Star :: pattern' =>
      (fix star (n : list ascii) : bool :=
         tokensMatch pattern' n
         || match n with
            | c :: n' => negb (isSlash c) && star n'
            | [] => false
            end) name
  | t :: pattern' =>
      match name with
      | c :: name' =>
          match t with
          | Lit p => Ascii.eqb p c
          | Class body => negb (isSlash c) && inClass c body
          | _ => negb (isSlash c)
          end && tokensMatch pattern' name'
      | [] => false
      end
  end.

Definition globMatch (pattern name : list ascii) : bool :=
  tokensMatch (tokens pattern None) name.

Definition isWildcard (c : ascii) : bool :=
  Ascii.eqb c "*"%char || Ascii.eqb c "?"%char.

Definition hiddenFromPattern (pattern name : list ascii) : bool :=
  match pattern, name with
  | p :: _, c :: _ => isWildcard p && isDotChar c
  | _, _ => false
  end.

Definition globSelects (patterns : list string) (name : string) : bool :=
  existsb (fun pattern =>
             globMatch (chars pattern) (chars name)
             && negb (hiddenFromPattern (chars pattern) (chars name)))
          patterns.

(** *** The shell and the file system

    [/bin/sh] splits a command line into words at blanks; nothing in the
    command lines of the module is quoted.  The file an output
    redirection creates is named by the word that follows the first
    [>] standing alone; a command line with a parenthesis is a syntax
    error, and nothing is created.  Other characters special to the
    shell are not interpreted. *)

Definition isBlank (c : ascii) : bool :=
  Ascii.eqb c " "%char || Ascii.eqb c (ascii_of_nat 9).

Fixpoint afterRedirection (l : list ascii) : option (list ascii) :=
  match l with
  | b :: tl =>
      match tl with
      | g :: b' :: rest =>
          if isBlank b && Ascii.eqb g ">"%char && isBlank b' then Some rest
          else afterRedirection tl
      | _ => None
      end
  | [] => None
  end.

Definition hasParenthesis (l : list ascii) : bool :=
  existsb (fun c => Ascii.eqb c "("%char || Ascii.eqb c ")"%char) l.

Definition shellCreates (cmd : string) : option (string * string) :=
  if hasParenthesis (chars cmd) then None
  else
    match afterRedirection (chars cmd) with
    | Some rest =>
        match takeWhile (fun c => negb (isBlank c)) (dropWhile isBlank rest) with
        | [] => None
        | word => Some (dirname (str word), basename (str word))
        end
    | None => None
    end.

(** Two paths name one directory when they are the same once normalized
    and rid of a closing slash (no symbolic links). *)
Definition withoutClosingSlash (p : string) : string :=
  match rev (chars p) with
  | c :: (_ :: _) as r => if isSlash c then str (rev r) else p
  | _ => p
  end.

Definition sameDirectory (a b : string) : bool :=
  String.eqb (withoutClosingSlash (normalize a)) (withoutClosingSlash (normalize b)).

Definition imports : Imports :=
  Build_Imports filenamify globSelects join dirname basename
                shellCreates sameDirectory.

End Node.

(** ** Vocabulary of the properties *)

(** The candidate [filenameMatcher] has a file among [cacheFiles] that
    [filterCacheFiles] counts for it. *)
Definition hasMatch (cacheFiles : list Entry) (filenameMatcher : string) : bool :=
  existsb (nameHasMatcher filenameMatcher) cacheFiles.

(** The first candidate, in the order of the list, that has such a file. *)
Definition firstWithMatch (filenameMatchers : list string) (cacheFiles : list Entry)
  : option string :=
  find (hasMatch cacheFiles) filenameMatchers.

(** The candidate a file name starts with, in the sense of the
    specification: plain prefix. *)
Definition startsWithCandidate (candidate : string) (cacheFile : Entry) : bool :=
  startsWith candidate (name cacheFile).

Definition validKey (key : string) : bool :=
  (String.length key <=? 255)%nat && negb (any (Ascii.eqb ",") key).

Definition validPaths (paths : option (list string)) : bool :=
  match paths with
  | Some (_ :: _) => true
  | _ => false
  end.

Definition isValidationError {A : Type} (o : Outcome A) : bool :=
  match o with
  | Thrown (ValidationError _) => true
  | _ => false
  end.

Section Views.
Context {imports : Imports}.

(** The cache directory of a world *)
Definition cacheDirOf (w : World) : string :=
  join (orDefault (CACHE_DIR w) "/media/cache/")
       (orDefault (GITHUB_REPOSITORY w) "").

(** The sanitized candidates of a restore call *)
Definition matchersOf (primaryKey : string) (restoreKeys : option (list string))
  : list string :=
  map filenamify (candidateKeys primaryKey restoreKeys).

(** What the scan of a restore call lists *)
Definition scanOf (w : World) (primaryKey : string) (restoreKeys : option (list string))
  : list Entry :=
  filter (fun e => globSelects
                     (map (fun matcher => matcher ++ "*") (matchersOf primaryKey restoreKeys))
                     (name e))
         (files w (cacheDirOf w)).

(** The command lines of the module *)
Definition unpackCommand (cachePath baseDir : string) : string :=
  "lz4 -d -v -c " ++ cachePath ++ " 2>/dev/null | tar xf - -C " ++ baseDir.

Definition packCommand (baseDir folderName cachePath : string) : string :=
  "tar cf - -C " ++ baseDir ++ " " ++ folderName
    ++ " | lz4 -v > " ++ cachePath ++ " 2>/dev/null".

Definition mkdirCommand (cacheDir : string) : string := "mkdir -p " ++ cacheDir.
End Views.

(** The world at a later time, nothing else changed: the clock moves
    between two calls. *)
Definition atTime (t : Z) (w : World) : World :=
  mkWorld (CACHE_DIR w) (GITHUB_REPOSITORY w) (files w) t (exitsZero w) (spawned w).

(** The world with another value of [process.env.CACHE_DIR] *)
Definition withCacheDir (dir : option string) (w : World) : World :=
  mkWorld dir (GITHUB_REPOSITORY w) (files w) (now w) (exitsZero w) (spawned w).

(** ** Concrete worlds, after the repository's integration test *)

Module Fixture.

Definition CACHE_DIR : string := "/repo/__tests__/__tmp__".
Definition GITHUB_REPOSITORY : string := "integration-test".
Definition FIXTURES_DIR : string := "/repo/__tests__/__fixtures__".
Definition cacheDir : string := "/repo/__tests__/__tmp__/integration-test".

Definition archive (n : string) (t : Z) : Entry :=
  mkEntry n n (Some (mkStats t)).

(** A host whose cache directory holds [listing], whose clock shows
    [t], and on which every command succeeds. *)
Definition host (listing : list Entry) (t : Z) : World :=
  mkWorld (Some CACHE_DIR) (Some GITHUB_REPOSITORY)
    (fun d => if String.eqb d cacheDir then listing else [])
    t (fun _ => true) [].

Definition paths : option (list string) := Some [FIXTURES_DIR].

(** A key of 256 characters *)
Definition longKey : string := string_of_list_ascii (repeat "k"%char 256).

(** The world after a computation, and its outcome *)
Definition after {A : Type} (m : Action A) (w : World) : World := snd (m w).
Definition outcome {A : Type} (m : Action A) (w : World) : Outcome A := fst (m w).

Definition listing (w : World) : list string := map name (files w cacheDir).
Definition commands (w : World) : list string := map fst (spawned w).
End Fixture.

(** * Proofs *)

(** ** Strings *)




Lemma isEmpty_true (s : string) : isEmpty s = true <-> s = "".
Proof. destruct s; simpl; split; congruence. Qed.

(** ** The stable sort and its last element *)

Section SortFacts.
Variable A : Type.
Variable compareFn : A -> A -> Z.

Lemma insert_In (x y : A) (l : list A) :
  In y (insert compareFn x l) <-> y = x \/ In y l.
Proof.
  induction l as [|z l IH]; simpl.
  - intuition congruence.
  - destruct (0 <? compareFn x z); simpl; rewrite ?IH; intuition congruence.
Qed.

Lemma sort_In (y : A) (l : list A) : In y (sort compareFn l) <-> In y l.
Proof.
  induction l as [|x l IH]; simpl; [tauto|].
  rewrite insert_In, IH; intuition congruence.
Qed.

(** An element greater than all of a list is inserted at its end. *)
Lemma insert_above (x : A) (l : list A) :
  forallb (fun y => 0 <? compareFn x y) l = true ->
  insert compareFn x l = (l ++ [x])%list.
Proof.
  induction l as [|z l IH]; simpl; [reflexivity|].
  intros H; apply andb_true_iff in H as [Hz Hl].
  now rewrite Hz, IH.
Qed.

(** Otherwise the last element stays the last. *)
Lemma insert_below (x f : A) (s : list A) :
  forallb (fun y => 0 <? compareFn x y) (s ++ [f])%list = false ->
  exists s', insert compareFn x (s ++ [f])%list = (s' ++ [f])%list.
Proof.
  induction s as [|z s IH]; simpl.
  - destruct (0 <? compareFn x f); [discriminate|].
    intros _; now exists [x].
  - destruct (0 <? compareFn x z); simpl.
    + intros H; destruct (IH H) as [s' Hs']; exists (z :: s'); now rewrite Hs'.
    + intros _; now exists (x :: z :: s).
Qed.

Lemma pop_snoc (s : list A) (f : A) : pop (s ++ [f])%list = (Some f, s).
Proof. unfold pop; rewrite rev_app_distr; simpl; now rewrite rev_involutive. Qed.

End SortFacts.

Lemma byMtime_pos (a b : Entry) : (0 <? byMtime a b) = (mtimeOf b <? mtimeOf a).
Proof.
  unfold byMtime; destruct (mtimeOf b <? mtimeOf a); [reflexivity|].
  now destruct (mtimeOf a <? mtimeOf b).
Qed.

(** The sorted array ends with the entry of greatest [mtimeOf], the last
    such in the order of the input. *)
Lemma sort_byMtime_last (l : list Entry) :
  l <> [] ->
  exists f l1 l2 s,
    l = (l1 ++ f :: l2)%list /\ sort byMtime l = (s ++ [f])%list /\
    (forall g, In g l1 -> mtimeOf g <= mtimeOf f) /\
    (forall g, In g l2 -> mtimeOf g < mtimeOf f).
Proof.
  induction l as [|x l IH]; [congruence|]; intros _.
  destruct l as [|y l'].
  - exists x, [], [], []; simpl; repeat split; intros g [].
  - destruct IH as (f & l1 & l2 & s & Hl & Hs & H1 & H2); [discriminate|].
    set (l := y :: l') in *.
    change (sort byMtime (x :: l)) with (insert byMtime x (sort byMtime l)).
    destruct (forallb (fun z => 0 <? byMtime x z) (sort byMtime l)) eqn:Hall.
    + exists x, [], l, (sort byMtime l); repeat split.
      * now apply insert_above.
      * intros g [].
      * intros g Hg. rewrite forallb_forall in Hall.
        specialize (Hall g (proj2 (sort_In byMtime g l) Hg)).
        rewrite byMtime_pos in Hall. lia.
    + rewrite Hs in Hall |- *.
      destruct (insert_below byMtime x f s Hall) as [s' Hs'].
      exists f, (x :: l1), l2, s'; repeat split; auto.
      * now rewrite Hl.
      * intros g [<-|Hg]; [|now apply H1].
        (* some element of the list is not below [x]; [f] is above it *)
        assert (Hex : exists z, In z l /\ mtimeOf x <= mtimeOf z).
        { rewrite <- Hs in Hall.
          assert (Hn : existsb (fun z => negb (0 <? byMtime x z)) (sort byMtime l) = true).
          { clear - Hall. induction (sort byMtime l) as [|z r IHr]; simpl in *; [discriminate|].
            destruct (0 <? byMtime x z); simpl in *; auto. }
          apply existsb_exists in Hn as (z & Hz & Hle).
          exists z; split; [now apply (sort_In byMtime)|].
          rewrite byMtime_pos in Hle. lia. }
        destruct Hex as (z & Hz & Hle).
        rewrite Hl in Hz; apply in_app_or in Hz as [Hz|[<-|Hz]].
        -- specialize (H1 z Hz); lia.
        -- lia.
        -- specialize (H2 z Hz); lia.
Qed.

(** ** The locator *)

Lemma pushMatching_filter (m : string) (cacheFiles acc : list Entry) :
  pushMatching m cacheFiles acc = (acc ++ filter (nameHasMatcher m) cacheFiles)%list.
Proof.
  revert acc; induction cacheFiles as [|f fs IH]; intros acc; simpl.
  - now rewrite app_nil_r.
  - destruct (nameHasMatcher m f); rewrite IH; [|reflexivity].
    now rewrite <- app_assoc.
Qed.

Lemma filter_nonempty (p : Entry -> bool) (l : list Entry) :
  (0 <? Z.of_nat (length (filter p l))) = existsb p l.
Proof.
  induction l as [|x l IH]; simpl; [reflexivity|].
  destruct (p x); simpl; [|exact IH].
  apply Z.ltb_lt; lia.
Qed.

(** [filterCacheFiles] stops at the first candidate that has a file, and
    hands over the files counted for that candidate, in scan order. *)
Lemma filterCacheFiles_first (ms : list string) (cacheFiles : list Entry) :
  filterCacheFiles ms cacheFiles =
  match firstWithMatch ms cacheFiles with
  | Some m => (Some m, filter (nameHasMatcher m) cacheFiles)
  | None => (None, [])
  end.
Proof.
  unfold filterCacheFiles, firstWithMatch.
  induction ms as [|m ms IH]; simpl; [reflexivity|].
  rewrite pushMatching_filter; simpl.
  rewrite filter_nonempty; unfold hasMatch at 1.
  destruct (existsb (nameHasMatcher m) cacheFiles) eqn:E; [reflexivity|].
  assert (Hnil : filter (nameHasMatcher m) cacheFiles = []).
  { clear - E. induction cacheFiles as [|f fs IHf]; simpl in *; [reflexivity|].
    destruct (nameHasMatcher m f); simpl in *; [discriminate | auto]. }
  rewrite Hnil; exact IH.
Qed.

Lemma firstWithMatch_Some (ms : list string) (cacheFiles : list Entry) (m : string) :
  firstWithMatch ms cacheFiles = Some m ->
  In m ms /\ hasMatch cacheFiles m = true /\ filter (nameHasMatcher m) cacheFiles <> [].
Proof.
  intros H; apply find_some in H as [Hin Hm]; repeat split; auto.
  unfold hasMatch in Hm; apply existsb_exists in Hm as (f & Hf & Hfm).
  intros Hnil. assert (Hin' : In f (filter (nameHasMatcher m) cacheFiles))
    by (apply filter_In; auto).
  now rewrite Hnil in Hin'.
Qed.

(** The candidates before the first one with a file have none. *)
Lemma firstWithMatch_earlier (ms : list string) (cacheFiles : list Entry) (m : string) :
  firstWithMatch ms cacheFiles = Some m ->
  exists before after,
    ms = (before ++ m :: after)%list /\
    forall c, In c before -> hasMatch cacheFiles c = false.
Proof.
  unfold firstWithMatch; induction ms as [|c ms IH]; simpl; [discriminate|].
  destruct (hasMatch cacheFiles c) eqn:E.
  - intros [= ->]; exists [], ms; split; [reflexivity | intros ? []].
  - intros H; destruct (IH H) as (b & a & -> & Hb).
    exists (c :: b), a; split; [reflexivity|].
    intros c' [<-|Hc']; auto.
Qed.

Lemma firstWithMatch_None (ms : list string) (cacheFiles : list Entry) :
  firstWithMatch ms cacheFiles = None <->
  forall c, In c ms -> hasMatch cacheFiles c = false.
Proof.
  unfold firstWithMatch; split.
  - intros H c Hc; exact (find_none _ _ H c Hc).
  - induction ms as [|c ms IH]; simpl; [reflexivity|]; intros H.
    rewrite (H c (or_introl eq_refl)); apply IH; intros; apply H; now right.
Qed.

(** [sort] then [pop] on a non-empty array *)
Lemma latestCacheFile_last_max (pcs : list Entry) :
  pcs <> [] ->
  exists f l1 l2,
    latestCacheFile pcs = Some f /\ pcs = (l1 ++ f :: l2)%list /\
    (forall g, In g l1 -> mtimeOf g <= mtimeOf f) /\
    (forall g, In g l2 -> mtimeOf g < mtimeOf f).
Proof.
  intros H; destruct (sort_byMtime_last H) as (f & l1 & l2 & s & Hl & Hs & H1 & H2).
  exists f, l1, l2; repeat split; auto.
  unfold latestCacheFile; now rewrite Hs, pop_snoc.
Qed.

(** The whole of [locateCacheFile]: the first candidate with a file, given
    up when it is the empty string, and the latest of its files. *)
Lemma locateCacheFile_first (ms : list string) (cacheFiles : list Entry) :
  locateCacheFile ms cacheFiles =
  match firstWithMatch ms cacheFiles with
  | Some m =>
      if isEmpty m then None
      else match latestCacheFile (filter (nameHasMatcher m) cacheFiles) with
           | Some f => Some (m, f)
           | None => None
           end
  | None => None
  end.
Proof.
  unfold locateCacheFile; rewrite filterCacheFiles_first.
  destruct (firstWithMatch ms cacheFiles) as [m|] eqn:E; [|reflexivity].
  destruct (firstWithMatch_Some _ _ E) as (_ & Hm & _).
  rewrite filter_nonempty; fold (hasMatch cacheFiles m); rewrite Hm; simpl.
  destruct (isEmpty m); reflexivity.
Qed.

(** ** Validation *)

Lemma validKey_false (key : string) :
  validKey key = false <->
  (255 < String.length key)%nat \/ any (Ascii.eqb ",") key = true.
Proof.
  unfold validKey; rewrite andb_false_iff, Nat.leb_gt, negb_false_iff; tauto.
Qed.

Lemma validPaths_false (paths : option (list string)) :
  validPaths paths = false <-> paths = None \/ paths = Some [].
Proof.
  destruct paths as [[|p ps]|]; simpl; split; intros H; auto;
    try discriminate; destruct H; discriminate.
Qed.

Section Running.
Context {imports : Imports}.

Lemma checkKey_valid (key : string) (w : World) :
  validKey key = true -> checkKey key w = (Returned tt, w).
Proof.
  unfold validKey, checkKey, commaFree; intros H.
  apply andb_true_iff in H as [Hlen Hcomma].
  apply Nat.leb_le in Hlen.
  destruct (Nat.ltb_spec 255 (String.length key)); [lia|].
  now rewrite Hcomma.
Qed.

Lemma checkKey_invalid (key : string) (w : World) :
  validKey key = false ->
  exists message, checkKey key w = (Thrown (ValidationError message), w).
Proof.
  unfold validKey, checkKey, commaFree; intros H.
  destruct (Nat.ltb_spec 255 (String.length key)) as [Hlt|Hge];
    [eexists; reflexivity|].
  apply Nat.leb_le in Hge; rewrite Hge in H; simpl in H.
  rewrite H; eexists; reflexivity.
Qed.

Lemma checkPaths_valid (paths : option (list string)) (w : World) :
  validPaths paths = true -> checkPaths paths w = (Returned tt, w).
Proof. destruct paths as [[|p ps]|]; simpl; intros H; now try discriminate. Qed.

Lemma checkPaths_invalid (paths : option (list string)) (w : World) :
  validPaths paths = false ->
  exists message, checkPaths paths w = (Thrown (ValidationError message), w).
Proof.
  destruct paths as [[|p ps]|]; simpl; intros H; try discriminate;
    eexists; reflexivity.
Qed.

(** ** The two entry points, past validation *)

Lemma restoreCache_validated paths primaryKey restoreKeys (w : World) :
  validKey primaryKey = true -> validPaths paths = true ->
  restoreCache paths primaryKey restoreKeys w =
  match locateCacheFile (matchersOf primaryKey restoreKeys)
                        (scanOf w primaryKey restoreKeys) with
  | None => (Returned None, w)
  | Some (key, cacheFile) =>
      let cachePath := join (cacheDirOf w) (Fg.path cacheFile) in
      let baseDir := dirname (firstPath paths) in
      (execAsync (unpackCommand cachePath baseDir) (UnpackFrom cachePath baseDir) ;;
       ret (Some key)) w
  end.
Proof.
  intros Hk Hp; unfold restoreCache, bind at 1.
  rewrite (checkKey_valid _ w Hk); unfold bind at 1.
  rewrite (checkPaths_valid _ w Hp); unfold bind at 1; simpl.
  unfold bind at 1; simpl.
  fold (cacheDirOf w) (matchersOf primaryKey restoreKeys).
  fold (scanOf w primaryKey restoreKeys).
  destruct (locateCacheFile _ _) as [[key cacheFile]|]; reflexivity.
Qed.

Lemma saveCache_validated paths key (w : World) :
  validPaths paths = true -> validKey key = true ->
  saveCache paths key w =
  let cacheDir := cacheDirOf w in
  let cacheName := filenamify key ++ ".tar.lz4" in
  let baseDir := dirname (firstPath paths) in
  let folderName := basename (firstPath paths) in
  (execAsync (mkdirCommand cacheDir) (MakeDirs cacheDir) ;;
   execAsync (packCommand baseDir folderName (join cacheDir cacheName))
             (PackTo baseDir folderName cacheDir cacheName) ;;
   ret 420) w.
Proof.
  intros Hp Hk; unfold saveCache, bind at 1.
  rewrite (checkPaths_valid _ w Hp); unfold bind at 1.
  rewrite (checkKey_valid _ w Hk); unfold bind at 1; simpl.
  reflexivity.
Qed.

(** A call that fails validation throws at once. *)
Lemma restoreCache_invalid paths primaryKey restoreKeys (w : World) :
  validKey primaryKey && validPaths paths = false ->
  exists message,
    restoreCache paths primaryKey restoreKeys w = (Thrown (ValidationError message), w).
Proof.
  intros H; unfold restoreCache, bind at 1.
  destruct (validKey primaryKey) eqn:Hk.
  - simpl in H; rewrite (checkKey_valid _ w Hk); unfold bind at 1.
    destruct (checkPaths_invalid paths w H) as [msg ->]; eauto.
  - destruct (checkKey_invalid primaryKey w Hk) as [msg ->]; eauto.
Qed.

Lemma saveCache_invalid paths key (w : World) :
  validKey key && validPaths paths = false ->
  exists message, saveCache paths key w = (Thrown (ValidationError message), w).
Proof.
  intros H; unfold saveCache, bind at 1.
  destruct (validPaths paths) eqn:Hp.
  - rewrite andb_true_r in H; rewrite (checkPaths_valid _ w Hp); unfold bind at 1.
    destruct (checkKey_invalid key w H) as [msg ->]; eauto.
  - destruct (checkPaths_invalid paths w Hp) as [msg ->]; eauto.
Qed.

(** ** Running the commands *)

Lemma restoreCache_hit paths primaryKey restoreKeys (w : World) key cacheFile :
  validKey primaryKey = true -> validPaths paths = true ->
  locateCacheFile (matchersOf primaryKey restoreKeys)
                  (scanOf w primaryKey restoreKeys) = Some (key, cacheFile) ->
  let cachePath := join (cacheDirOf w) (Fg.path cacheFile) in
  let baseDir := dirname (firstPath paths) in
  let cmd := unpackCommand cachePath baseDir in
  restoreCache paths primaryKey restoreKeys w =
  (if exitsZero w cmd then Returned (Some key) else Thrown (ExecError cmd),
   spawn cmd (UnpackFrom cachePath baseDir) w).
Proof.
  intros Hk Hp Hloc cachePath baseDir cmd.
  rewrite restoreCache_validated by assumption.
  rewrite Hloc; simpl; unfold bind, execAsync.
  fold cachePath baseDir cmd.
  now destruct (exitsZero w cmd).
Qed.

Lemma saveCache_run paths key (w : World) :
  validPaths paths = true -> validKey key = true ->
  let cacheDir := cacheDirOf w in
  let cacheName := filenamify key ++ ".tar.lz4" in
  let baseDir := dirname (firstPath paths) in
  let folderName := basename (firstPath paths) in
  let pack := packCommand baseDir folderName (join cacheDir cacheName) in
  let w1 := spawn (mkdirCommand cacheDir) (MakeDirs cacheDir) w in
  saveCache paths key w =
  if exitsZero w (mkdirCommand cacheDir) then
    (if exitsZero w pack then Returned 420 else Thrown (ExecError pack),
     spawn pack (PackTo baseDir folderName cacheDir cacheName) w1)
  else (Thrown (ExecError (mkdirCommand cacheDir)), w1).
Proof.
  intros Hp Hk cacheDir cacheName baseDir folderName pack w1.
  rewrite saveCache_validated by assumption.
  simpl; unfold bind, execAsync.
  fold cacheDir cacheName baseDir folderName pack w1.
  destruct (exitsZero w (mkdirCommand cacheDir)); [|reflexivity].
  change (exitsZero w1) with (exitsZero w).
  now destruct (exitsZero w pack).
Qed.


End Running.

(** ** Writing a file *)




(** * The claims *)

Section Claims.
Context {imports : Imports}.

(** The walk of the candidates in the terms of the code itself, a file
    being counted for a candidate as [filterCacheFiles] counts it and the
    key being the sanitized one.  For every world, valid primary key and
    path list, and every ordered list of restore keys: the locator goes
    through the
    sanitized candidates [primaryKey, ...restoreKeys] in order and stops
    at the first one, [m], that has a file counted for it among those
    the scan lists; the modification times play no part in that choice.
    When [m] is not the empty string it is the key reported: the locator
    returns it with a file, and the restore call returns it once the
    unpacking has succeeded.  When the match comes from a restore key,
    the primary candidate having no file, the key reported differs from
    the sanitized primary key and is the sanitized form of a restore
    key: a fallback hit. *)
Theorem restore_reports_first_candidate
    paths primaryKey restoreKeys (w : World) (m : string)
    (Hkey : validKey primaryKey = true)
    (Hpaths : validPaths paths = true)
    (Hfirst : firstWithMatch (matchersOf primaryKey restoreKeys)
                             (scanOf w primaryKey restoreKeys) = Some m)
    (Hm : m <> "") :
  let cacheFiles := scanOf w primaryKey restoreKeys in
  (exists before after,
      matchersOf primaryKey restoreKeys = (before ++ m :: after)%list /\
      forall c, In c before -> hasMatch cacheFiles c = false) /\
  hasMatch cacheFiles m = true /\
  (exists cacheFile,
      locateCacheFile (matchersOf primaryKey restoreKeys) cacheFiles
        = Some (m, cacheFile) /\
      let cmd := unpackCommand (join (cacheDirOf w) (Fg.path cacheFile))
                               (dirname (firstPath paths)) in
      fst (restoreCache paths primaryKey restoreKeys w)
        = if exitsZero w cmd then Returned (Some m) else Thrown (ExecError cmd)) /\
  (hasMatch cacheFiles (filenamify primaryKey) = false ->
     m <> filenamify primaryKey /\
     exists restoreKey rest,
       restoreKeys = Some rest /\ In restoreKey rest /\ m = filenamify restoreKey).
Proof.
  intros cacheFiles.
  destruct (firstWithMatch_Some _ _ Hfirst) as (Hin & Hhas & Hne).
  split; [exact (firstWithMatch_earlier _ _ Hfirst)|].
  split; [exact Hhas|].
  split.
  - destruct (latestCacheFile_last_max Hne) as (f & _ & _ & Hlatest & _).
    exists f.
    assert (Hloc : locateCacheFile (matchersOf primaryKey restoreKeys) cacheFiles
                   = Some (m, f)).
    { rewrite locateCacheFile_first; fold cacheFiles in Hfirst; rewrite Hfirst.
      destruct (isEmpty m) eqn:E; [now apply isEmpty_true in E|].
      fold cacheFiles in Hlatest; now rewrite Hlatest. }
    split; [exact Hloc|].
    rewrite restoreCache_validated by assumption.
    fold cacheFiles; rewrite Hloc; simpl.
    unfold bind, execAsync.
    now destruct (exitsZero w _).
  - intros Hprimary; unfold cacheFiles in Hprimary.
    split; [intros ->; congruence|].
    unfold matchersOf, candidateKeys in Hin.
    destruct restoreKeys as [[|r rs]|]; simpl in Hin.
    + destruct Hin as [<-|[]]; congruence.
    + destruct Hin as [<-|Hin]; [congruence|].
      change (In m (map filenamify (r :: rs))) in Hin.
      apply in_map_iff in Hin as (restoreKey & <- & Hr).
      now exists restoreKey, (r :: rs).
    + destruct Hin as [<-|[]]; congruence.
Qed.


(** C5.  A key longer than 255 characters, a key with a comma, an empty
    path list or an absent one: [saveCache] and [restoreCache] both fail
    with a [ValidationError], and the world is as it was before the
    call: nothing was scanned into, written or spawned. *)
Theorem invalid_input_fails_before_any_effect
    paths key restoreKeys (w : World)
    (Hbad : (255 < String.length key)%nat \/ any (Ascii.eqb ",") key = true \/
            paths = None \/ paths = Some []) :
  (exists message, saveCache paths key w = (Thrown (ValidationError message), w)) /\
  (exists message,
      restoreCache paths key restoreKeys w = (Thrown (ValidationError message), w)).
Proof.
  assert (H : validKey key && validPaths paths = false).
  { apply andb_false_iff.
    destruct Hbad as [H|[H|H]].
    - left; apply validKey_false; now left.
    - left; apply validKey_false; now right.
    - right; now apply validPaths_false. }
  split; [now apply saveCache_invalid | now apply restoreCache_invalid].
Qed.

(** A miss in the terms of the code itself.  When no candidate, primary
    or fallback, has a file counted for it by [filterCacheFiles] among
    those the scan lists, a validated restore call returns the
    no-match result: nothing is thrown, no command is spawned, and the
    world is as it was. *)
Theorem restore_miss_has_no_effect
    paths primaryKey restoreKeys (w : World)
    (Hkey : validKey primaryKey = true)
    (Hpaths : validPaths paths = true)
    (Hnone : forall c, In c (matchersOf primaryKey restoreKeys) ->
                       hasMatch (scanOf w primaryKey restoreKeys) c = false) :
  restoreCache paths primaryKey restoreKeys w = (Returned None, w).
Proof.
  rewrite restoreCache_validated by assumption.
  rewrite locateCacheFile_first.
  now rewrite (proj2 (firstWithMatch_None _ _) Hnone).
Qed.


(** C9.  [ReserveCacheError] is never thrown: whatever the arguments
    and the world, neither [saveCache] nor [restoreCache] ends with
    it. *)
Theorem ReserveCacheError_is_never_thrown
    paths key primaryKey restoreKeys (w : World) (message : string) :
  fst (saveCache paths key w) <> Thrown (ReserveCacheError message) /\
  fst (restoreCache paths primaryKey restoreKeys w)
    <> Thrown (ReserveCacheError message).
Proof.
  split.
  - destruct (validKey key && validPaths paths) eqn:Hv.
    + apply andb_true_iff in Hv as [Hk Hp].
      rewrite saveCache_run by assumption; cbv zeta.
      destruct (exitsZero w (mkdirCommand _)); [|discriminate].
      destruct (exitsZero w (packCommand _ _ _)); discriminate.
    + destruct (saveCache_invalid _ _ w Hv) as [msg ->]; discriminate.
  - destruct (validKey primaryKey && validPaths paths) eqn:Hv.
    + apply andb_true_iff in Hv as [Hk Hp].
      destruct (locateCacheFile (matchersOf primaryKey restoreKeys)
                                (scanOf w primaryKey restoreKeys))
        as [[k cacheFile]|] eqn:Hloc.
      * rewrite (@restoreCache_hit _ paths primaryKey restoreKeys w
                   k cacheFile Hk Hp Hloc); cbv zeta.
        destruct (exitsZero w _); discriminate.
      * rewrite restoreCache_validated by assumption.
        rewrite Hloc; discriminate.
    + destruct (@restoreCache_invalid _ paths primaryKey restoreKeys w Hv)
        as [msg ->]; discriminate.
Qed.

(** C10.  [restoreCache] validates the primary key and the path list
    and nothing else: whether it throws a [ValidationError] does not
    depend on the restore keys.  Every restore key, whatever its length
    and whether or not it holds a comma, is sanitized and becomes a
    candidate; when it is the first candidate with a file (and is not
    empty once sanitized) it is the key the call reports. *)
Theorem restore_keys_are_not_validated
    paths primaryKey restoreKeys (w : World) :
  isValidationError (fst (restoreCache paths primaryKey restoreKeys w))
    = negb (validKey primaryKey && validPaths paths) /\
  (forall rest,
      matchersOf primaryKey (Some rest)
        = filenamify primaryKey :: map filenamify rest) /\
  (forall rest restoreKey,
      validKey primaryKey = true -> validPaths paths = true ->
      restoreKeys = Some rest -> In restoreKey rest ->
      firstWithMatch (matchersOf primaryKey restoreKeys)
                     (scanOf w primaryKey restoreKeys) = Some (filenamify restoreKey) ->
      filenamify restoreKey <> "" ->
      exists cacheFile,
        let cmd := unpackCommand (join (cacheDirOf w) (Fg.path cacheFile))
                                 (dirname (firstPath paths)) in
        fst (restoreCache paths primaryKey restoreKeys w)
          = if exitsZero w cmd then Returned (Some (filenamify restoreKey))
            else Thrown (ExecError cmd)).
Proof.
  split; [|split].
  - destruct (validKey primaryKey && validPaths paths) eqn:Hv; simpl.
    + apply andb_true_iff in Hv as [Hk Hp].
      destruct (locateCacheFile (matchersOf primaryKey restoreKeys)
                                (scanOf w primaryKey restoreKeys))
        as [[k cacheFile]|] eqn:Hloc.
      * rewrite (@restoreCache_hit _ paths primaryKey restoreKeys w
                   k cacheFile Hk Hp Hloc); cbv zeta.
        now destruct (exitsZero w _).
      * rewrite restoreCache_validated by assumption.
        now rewrite Hloc.
    + now destruct (@restoreCache_invalid _ paths primaryKey restoreKeys w Hv)
        as [msg ->].
  - intros [|r rs]; reflexivity.
  - intros rest restoreKey Hk Hp -> Hin Hfirst Hne.
    destruct (firstWithMatch_Some _ _ Hfirst) as (_ & _ & Hfiles).
    destruct (latestCacheFile_last_max Hfiles) as (f & _ & _ & Hlatest & _).
    exists f.
    assert (Hloc : locateCacheFile (matchersOf primaryKey (Some rest))
                                   (scanOf w primaryKey (Some rest))
                   = Some (filenamify restoreKey, f)).
    { rewrite locateCacheFile_first, Hfirst, Hlatest.
      destruct (isEmpty (filenamify restoreKey)) eqn:E; [|reflexivity].
      now apply isEmpty_true in E. }
    now rewrite (@restoreCache_hit _ paths primaryKey (Some rest) w _ f Hk Hp Hloc).
Qed.
End Claims.

(** * The claims on concrete hosts *)

Section OnNode.
Import Fixture.
#[local] Existing Instance Node.imports.

(** C1, where it fails.  The cache directory holds [foo.tar.lz4]; the
    primary key is the empty string, the restore key is [foo].  The
    first candidate, the empty string, has a file (every name starts
    with it and contains it), and so has the second; yet the call
    reports no match at all. *)
Lemma restore_with_empty_candidate_reports_nothing :
  let w := host [archive "foo.tar.lz4" 5] 10 in
  let cacheFiles := scanOf w "" (Some ["foo"]) in
  matchersOf "" (Some ["foo"]) = [""; "foo"] /\
  cacheFiles = [archive "foo.tar.lz4" 5] /\
  validKey "" = true /\
  startsWithCandidate "" (archive "foo.tar.lz4" 5) = true /\
  firstWithMatch (matchersOf "" (Some ["foo"])) cacheFiles = Some "" /\
  hasMatch cacheFiles "foo" = true /\
  restoreCache paths "" (Some ["foo"]) w = (Returned None, w).
Proof. repeat split. Qed.

(** The scenario of the specification: saves under
    [v1-deps] and later under [v2-deps]; a restore with primary key
    [v3-deps] and restore keys [v1-deps], [v2-deps] reports [v1-deps],
    the older archive. *)
Lemma restore_reports_first_candidate_witness :
  let w := host [archive "v1-deps.tar.lz4" 10; archive "v2-deps.tar.lz4" 20] 30 in
  let restoreKeys := Some ["v1-deps"; "v2-deps"] in
  validKey "v3-deps" = true /\
  validPaths paths = true /\
  firstWithMatch (matchersOf "v3-deps" restoreKeys) (scanOf w "v3-deps" restoreKeys)
    = Some "v1-deps" /\
  "v1-deps" <> "" /\
  fst (restoreCache paths "v3-deps" restoreKeys w) = Returned (Some "v1-deps") /\
  "v1-deps" <> filenamify "v3-deps".
Proof.
  intros w restoreKeys.
  assert (Hkey : validKey "v3-deps" = true) by reflexivity.
  assert (Hpaths : validPaths paths = true) by reflexivity.
  assert (Hfirst : firstWithMatch (matchersOf "v3-deps" restoreKeys)
                                  (scanOf w "v3-deps" restoreKeys) = Some "v1-deps")
    by (vm_compute; reflexivity).
  assert (Hm : "v1-deps" <> "") by discriminate.
  destruct (@restore_reports_first_candidate Node.imports
              paths "v3-deps" restoreKeys w "v1-deps" Hkey Hpaths Hfirst Hm)
    as (_ & _ & (cacheFile & _ & Hreturned) & Hfallback).
  split; [exact Hkey|]. split; [exact Hpaths|].
  split; [exact Hfirst|]. split; [exact Hm|].
  split; [exact Hreturned|].
  apply Hfallback.
  reflexivity.
Defined.

(** C2, where it fails.  The cache directory holds [xfoo.tar.lz4] only;
    the primary key is [foo], the restore key [xfoo].  The scan lists the
    file for the pattern of the restore key; its name does not start
    with [foo] but contains it, and [filterCacheFiles] counts it for
    [foo]: the call reports the primary key. *)
Lemma name_containing_candidate_counts_as_match :
  let w := host [archive "xfoo.tar.lz4" 5] 10 in
  let file := archive "xfoo.tar.lz4" 5 in
  scanOf w "foo" (Some ["xfoo"]) = [file] /\
  startsWithCandidate "foo" file = false /\
  nameHasMatcher "foo" file = true /\
  filterCacheFiles ["foo"; "xfoo"] [file] = (Some "foo", [file]) /\
  fst (restoreCache paths "foo" (Some ["xfoo"]) w) = Returned (Some "foo").
Proof. repeat split. Qed.


(** C4, where it fails.  The key [a/b] passes validation; [saveCache]
    writes [a!b.tar.lz4]; the [restoreCache] that follows finds it and
    returns [a!b], the sanitized key, which is not the key given. *)
Lemma restore_after_save_returns_sanitized_key :
  let w0 := host [] 10 in
  let w1 := after (saveCache paths "a/b") w0 in
  validKey "a/b" = true /\
  outcome (saveCache paths "a/b") w0 = Returned 420 /\
  listing w1 = ["a!b.tar.lz4"] /\
  outcome (restoreCache paths "a/b" None) w1 = Returned (Some "a!b") /\
  "a!b" <> "a/b".
Proof. repeat split; discriminate. Qed.

(** C5, an instance.  A key of 256 characters: both calls fail with
    [ValidationError] and leave the world as it was. *)
Lemma invalid_input_fails_before_any_effect_witness :
  let w := host [archive "save-test.tar.lz4" 5] 10 in
  (255 < String.length longKey)%nat /\
  (exists message, saveCache paths longKey w = (Thrown (ValidationError message), w)) /\
  (exists message,
      restoreCache paths longKey (Some ["save-test"]) w
        = (Thrown (ValidationError message), w)).
Proof.
  intros w.
  assert (Hlong : (255 < String.length longKey)%nat)
    by (apply Nat.ltb_lt; vm_compute; reflexivity).
  split; [exact Hlong|].
  exact (@invalid_input_fails_before_any_effect Node.imports
           paths longKey (Some ["save-test"]) w (or_introl Hlong)).
Defined.

(** A restore for which the directory holds nothing that matches: the
    no-match result, the world untouched. *)

(** C6, where it fails.  The cache directory holds [ab.tar.lz4] only; the
    primary key is [a[b]], the restore key [b].  No candidate is the start
    of the file's name.  Yet the scan lists the file, the pattern of the
    primary key being read as [a], a class, and anything; its name
    contains [b], so [filterCacheFiles] counts it for the restore key and
    the call unpacks it and returns [b], where the claim has no match. *)
Lemma restore_hits_where_no_name_starts_with_a_candidate :
  let w := host [archive "ab.tar.lz4" 5] 10 in
  let file := archive "ab.tar.lz4" 5 in
  let restore := restoreCache paths "a[b]" (Some ["b"]) in
  validKey "a[b]" = true /\
  matchersOf "a[b]" (Some ["b"]) = ["a[b]"; "b"] /\
  files w (cacheDirOf w) = [file] /\
  startsWithCandidate "a[b]" file = false /\
  startsWithCandidate "b" file = false /\
  scanOf w "a[b]" (Some ["b"]) = [file] /\
  outcome restore w = Returned (Some "b") /\
  commands (after restore w)
    = ["lz4 -d -v -c /repo/__tests__/__tmp__/integration-test/ab.tar.lz4 2>/dev/null | tar xf - -C /repo/__tests__"].
Proof. repeat split. Qed.

(** An instance of the lemma above. *)
Lemma restore_miss_has_no_effect_witness :
  let w := host [archive "other.tar.lz4" 5] 10 in
  let restoreKeys := Some ["fallback-test"] in
  validKey "restore-test" = true /\
  validPaths paths = true /\
  (forall c, In c (matchersOf "restore-test" restoreKeys) ->
             hasMatch (scanOf w "restore-test" restoreKeys) c = false) /\
  restoreCache paths "restore-test" restoreKeys w = (Returned None, w).
Proof.
  intros w restoreKeys.
  assert (Hkey : validKey "restore-test" = true) by reflexivity.
  assert (Hpaths : validPaths paths = true) by reflexivity.
  assert (Hnone : forall c, In c (matchersOf "restore-test" restoreKeys) ->
                            hasMatch (scanOf w "restore-test" restoreKeys) c = false).
  { intros c Hc; vm_compute in Hc.
    destruct Hc as [<-|[<-|[]]]; vm_compute; reflexivity. }
  split; [exact Hkey|]. split; [exact Hpaths|]. split; [exact Hnone|].
  exact (@restore_miss_has_no_effect Node.imports
           paths "restore-test" restoreKeys w Hkey Hpaths Hnone).
Defined.

(** C8, where it fails.  The key [a b] passes validation.  The path
    built for it ends in [a b.tar.lz4] and is put into the pack command
    line without quotes; the shell splits it at the blank, so the
    redirection creates the file [a].  No file [a b.tar.lz4] is written,
    though the call returns. *)
Lemma save_with_a_blank_in_the_key_writes_elsewhere :
  let w := host [] 10 in
  let w' := after (saveCache paths "a b") w in
  validKey "a b" = true /\
  filenamify "a b" = "a b" /\
  outcome (saveCache paths "a b") w = Returned 420 /\
  last (commands w') ""
    = "tar cf - -C /repo/__tests__ __fixtures__ | lz4 -v > /repo/__tests__/__tmp__/integration-test/a b.tar.lz4 2>/dev/null" /\
  shellCreates (last (commands w') "")
    = Some ("/repo/__tests__/__tmp__/integration-test", "a") /\
  listing w' = ["a"] /\
  ~ In "a b.tar.lz4" (listing w').
Proof.
  repeat split; intros [H|[]]; discriminate.
Qed.

(** The test [creates archive file]: with the key [save-test] the entry
    is where the claim puts it. *)
Example test_creates_archive_file :
  let w' := after (saveCache paths "save-test") (host [] 10) in
  files w' "/repo/__tests__/__tmp__/integration-test"
    = [archive "save-test.tar.lz4" 10].
Proof. reflexivity. Qed.


(** C10, an instance.  A restore key with a comma, which [checkKey] would
    refuse, is a candidate like the others and is reported when it
    matches. *)
Lemma restore_key_with_comma_is_reported :
  let w := host [archive "a,b-1.tar.lz4" 5] 10 in
  validKey "a,b" = false /\
  restoreCache paths "v3" (Some ["a,b"]) w
  = (Returned (Some "a,b"),
     spawn (unpackCommand "/repo/__tests__/__tmp__/integration-test/a,b-1.tar.lz4"
                          "/repo/__tests__")
           (UnpackFrom "/repo/__tests__/__tmp__/integration-test/a,b-1.tar.lz4"
                       "/repo/__tests__") w).
Proof. split; reflexivity. Qed.

(** ** The integration test, replayed *)

(** [restores single archive file] *)
Example test_restores_single_archive_file :
  let w := after (saveCache paths "restore-test") (host [] 10) in
  outcome (restoreCache paths "restore-test" None) w = Returned (Some "restore-test") /\
  commands (after (restoreCache paths "restore-test" None) (atTime 20 w)) =
  [ "mkdir -p /repo/__tests__/__tmp__/integration-test";
    "tar cf - -C /repo/__tests__ __fixtures__ | lz4 -v > /repo/__tests__/__tmp__/integration-test/restore-test.tar.lz4 2>/dev/null";
    "lz4 -d -v -c /repo/__tests__/__tmp__/integration-test/restore-test.tar.lz4 2>/dev/null | tar xf - -C /repo/__tests__" ].
Proof. split; reflexivity. Qed.

(** [restore latest archive file] *)
Example test_restore_latest_archive_file :
  let w1 := after (saveCache paths "latest-archive-test-1") (host [] 10) in
  let w2 := after (saveCache paths "latest-archive-test-2") (atTime 20 w1) in
  let w3 := after (restoreCache paths "latest-archive-test" None) (atTime 30 w2) in
  listing w2 = ["latest-archive-test-1.tar.lz4"; "latest-archive-test-2.tar.lz4"] /\
  last (commands w3) "" =
  "lz4 -d -v -c /repo/__tests__/__tmp__/integration-test/latest-archive-test-2.tar.lz4 2>/dev/null | tar xf - -C /repo/__tests__".
Proof. split; reflexivity. Qed.

(** [restore from fallback key] *)
Example test_restore_from_fallback_key :
  let w1 := after (saveCache paths "fallback-test") (host [] 10) in
  let restore := restoreCache paths "fallback-test-doesnt-exist" (Some ["fallback-test"]) in
  outcome restore w1 = Returned (Some "fallback-test") /\
  last (commands (after restore w1)) "" =
  "lz4 -d -v -c /repo/__tests__/__tmp__/integration-test/fallback-test.tar.lz4 2>/dev/null | tar xf - -C /repo/__tests__".
Proof. split; reflexivity. Qed.

End OnNode.

(** * Further properties of the code *)

(** ** The comparator and the filter *)

(** X1.  The comparator handed to [sort] is consistent: its sign is the
    order of the two modification times, it is antisymmetric, and it is
    transitive.  The sort is therefore well defined. *)
Theorem byMtime_is_a_consistent_comparator (a b c : Entry) :
  (byMtime a b = 1 <-> mtimeOf b < mtimeOf a) /\
  (byMtime a b = -1 <-> mtimeOf a < mtimeOf b) /\
  (byMtime a b = 0 <-> mtimeOf a = mtimeOf b) /\
  byMtime a b = - byMtime b a /\
  (byMtime a b <= 0 -> byMtime b c <= 0 -> byMtime a c <= 0).
Proof.
  unfold byMtime.
  destruct (Z.ltb_spec (mtimeOf b) (mtimeOf a)), (Z.ltb_spec (mtimeOf a) (mtimeOf b)),
    (Z.ltb_spec (mtimeOf c) (mtimeOf b)), (Z.ltb_spec (mtimeOf b) (mtimeOf c)),
    (Z.ltb_spec (mtimeOf c) (mtimeOf a)), (Z.ltb_spec (mtimeOf a) (mtimeOf c));
    repeat split; intros; try lia; try discriminate.
Qed.

Lemma nameHasMatcher_empty (f : Entry) : nameHasMatcher "" f = true.
Proof. unfold nameHasMatcher, indexOf; now destruct (name f). Qed.

Lemma hasMatch_false (cacheFiles : list Entry) (c : string) :
  hasMatch cacheFiles c = false <->
  forall f, In f cacheFiles -> nameHasMatcher c f = false.
Proof.
  unfold hasMatch; split.
  - intros H f Hf; destruct (nameHasMatcher c f) eqn:E; [|reflexivity].
    assert (existsb (nameHasMatcher c) cacheFiles = true)
      by (apply existsb_exists; eauto).
    congruence.
  - intros H; destruct (existsb (nameHasMatcher c) cacheFiles) eqn:E; [|reflexivity].
    apply existsb_exists in E as (f & Hf & Hm); rewrite (H f Hf) in Hm; discriminate.
Qed.

(** X2.  Although [filterCacheFiles] fills one array across all the
    candidates, what it returns never mixes candidates: the key is [null]
    exactly when the array is empty, and otherwise the array holds, in
    scan order, the files whose name contains the returned candidate and
    nothing else, and no candidate before it has any such file. *)
Theorem filterCacheFiles_never_mixes_candidates
    (filenameMatchers : list string) (cacheFiles : list Entry) :
  let key := fst (filterCacheFiles filenameMatchers cacheFiles) in
  let potentialCaches := snd (filterCacheFiles filenameMatchers cacheFiles) in
  (key = None <-> potentialCaches = []) /\
  (forall m, key = Some m ->
     potentialCaches = filter (nameHasMatcher m) cacheFiles /\
     exists before after,
       filenameMatchers = (before ++ m :: after)%list /\
       forall c f, In c before -> In f cacheFiles -> nameHasMatcher c f = false).
Proof.
  cbv zeta; rewrite filterCacheFiles_first.
  destruct (firstWithMatch filenameMatchers cacheFiles) as [m|] eqn:E; simpl.
  - destruct (firstWithMatch_Some _ _ E) as (_ & _ & Hne).
    split; [split; [discriminate | intros H; now rewrite H in Hne]|].
    intros m' [= <-]; split; [reflexivity|].
    destruct (firstWithMatch_earlier _ _ E) as (before & after & Hms & Hbefore).
    exists before, after; split; [exact Hms|].
    intros c f Hc Hf; exact (proj1 (hasMatch_false _ _) (Hbefore c Hc) f Hf).
  - split; [tauto | discriminate].
Qed.

(** X3.  What [locateCacheFile] returns is sound: the key is one of the
    candidates and is not empty, the file is one of the files given, its
    name contains the key, and no file whose name contains the key is
    newer.  With no candidate or no file it returns [null]; and it returns
    [null] exactly when no candidate has a file or the first that has one
    is the empty string. *)
Theorem locateCacheFile_is_sound
    (filenameMatchers : list string) (cacheFiles : list Entry) :
  (forall key cacheFile,
      locateCacheFile filenameMatchers cacheFiles = Some (key, cacheFile) ->
      key <> "" /\ In key filenameMatchers /\ In cacheFile cacheFiles /\
      nameHasMatcher key cacheFile = true /\
      forall g, In g cacheFiles -> nameHasMatcher key g = true ->
                mtimeOf g <= mtimeOf cacheFile) /\
  locateCacheFile [] cacheFiles = None /\
  locateCacheFile filenameMatchers [] = None /\
  (locateCacheFile filenameMatchers cacheFiles = None <->
   forall m, firstWithMatch filenameMatchers cacheFiles = Some m -> m = "").
Proof.
  split; [|split; [reflexivity|split]].
  - intros key cacheFile; rewrite locateCacheFile_first.
    destruct (firstWithMatch filenameMatchers cacheFiles) as [m|] eqn:E; [|discriminate].
    destruct (isEmpty m) eqn:Hm; [discriminate|].
    destruct (firstWithMatch_Some _ _ E) as (Hin & _ & Hne).
    destruct (latestCacheFile_last_max Hne) as (f & l1 & l2 & -> & Hl & H1 & H2).
    intros [= <- <-].
    assert (Hf : In f (filter (nameHasMatcher m) cacheFiles))
      by (rewrite Hl; apply in_elt).
    apply filter_In in Hf as [Hf Hfm].
    split; [intros ->; discriminate|]. repeat split; auto.
    intros g Hg Hgm.
    assert (Hg' : In g (filter (nameHasMatcher m) cacheFiles))
      by (apply filter_In; auto).
    rewrite Hl in Hg'; apply in_app_or in Hg' as [Hg'|[<-|Hg']].
    + now apply H1.
    + lia.
    + specialize (H2 g Hg'); lia.
  - rewrite locateCacheFile_first.
    replace (firstWithMatch filenameMatchers []) with (@None string); [reflexivity|].
    symmetry; apply firstWithMatch_None; reflexivity.
  - rewrite locateCacheFile_first.
    destruct (firstWithMatch filenameMatchers cacheFiles) as [m|] eqn:E.
    + destruct (isEmpty m) eqn:Hm.
      * split; [intros _ m' [= <-]; now apply isEmpty_true | reflexivity].
      * destruct (firstWithMatch_Some _ _ E) as (_ & _ & Hne).
        destruct (latestCacheFile_last_max Hne) as (f & _ & _ & -> & _).
        split; [discriminate|].
        intros H; specialize (H m eq_refl); subst m; discriminate.
    + split; [discriminate | reflexivity].
Qed.

(** ** The two entry points *)

Lemma snoc_neq (A : Type) (l : list A) (x : A) : (l ++ [x])%list <> l.
Proof.
  intros H; apply (f_equal (@length A)) in H.
  rewrite length_app in H; simpl in H; lia.
Qed.


Section Further.
Context {imports : Imports}.

(** X4.  Which validation error a call reports.  [saveCache] looks at the
    paths first: with no path it reports the path error, whatever the key.
    [restoreCache] looks at the key first: a key of more than 255
    characters gets the length error, with or without a comma and
    whatever the paths; a key of at most 255 characters with a comma gets
    the comma error; the path error comes only for a valid key.  In each
    message the key stands as it was given.  [saveCache] throws a
    [ValidationError] exactly for an invalid key or an empty or absent
    path list, so a key of 255 characters without comma passes. *)
Theorem validation_reports_the_first_failed_check
    paths key restoreKeys (w : World) :
  let pathError :=
    ValidationError
      "Path Validation Error: At least one directory or file path is required" in
  let lengthError :=
    ValidationError
      ("Key Validation Error: " ++ key ++ " cannot be larger than 255 characters.") in
  let commaError :=
    ValidationError ("Key Validation Error: " ++ key ++ " cannot contain commas.") in
  (validPaths paths = false -> saveCache paths key w = (Thrown pathError, w)) /\
  ((255 < String.length key)%nat ->
     restoreCache paths key restoreKeys w = (Thrown lengthError, w) /\
     (validPaths paths = true -> saveCache paths key w = (Thrown lengthError, w))) /\
  ((String.length key <= 255)%nat -> any (Ascii.eqb ",") key = true ->
     restoreCache paths key restoreKeys w = (Thrown commaError, w) /\
     (validPaths paths = true -> saveCache paths key w = (Thrown commaError, w))) /\
  (validKey key = true -> validPaths paths = false ->
     restoreCache paths key restoreKeys w = (Thrown pathError, w)) /\
  isValidationError (fst (saveCache paths key w))
    = negb (validKey key && validPaths paths).
Proof.
  intros pathError lengthError commaError.
  assert (Hpath : validPaths paths = false -> checkPaths paths w = (Thrown pathError, w)).
  { destruct paths as [[|p ps]|]; simpl; intros H; now try discriminate. }
  assert (Hlen : (255 < String.length key)%nat ->
                 checkKey key w = (Thrown lengthError, w)).
  { intros H; unfold checkKey.
    now destruct (Nat.ltb_spec 255 (String.length key)); [|lia]. }
  assert (Hcomma : (String.length key <= 255)%nat -> any (Ascii.eqb ",") key = true ->
                   checkKey key w = (Thrown commaError, w)).
  { intros H Hc; unfold checkKey, commaFree.
    destruct (Nat.ltb_spec 255 (String.length key)); [lia|].
    now rewrite Hc. }
  split; [|split; [|split; [|split]]].
  - intros H; unfold saveCache, bind at 1; now rewrite (Hpath H).
  - intros H; split.
    + unfold restoreCache, bind at 1; now rewrite (Hlen H).
    + intros Hp; unfold saveCache, bind at 1.
      rewrite (checkPaths_valid _ w Hp); unfold bind at 1; now rewrite (Hlen H).
  - intros H Hc; split.
    + unfold restoreCache, bind at 1; now rewrite (Hcomma H Hc).
    + intros Hp; unfold saveCache, bind at 1.
      rewrite (checkPaths_valid _ w Hp); unfold bind at 1; now rewrite (Hcomma H Hc).
  - intros Hk Hp; unfold restoreCache, bind at 1.
    rewrite (checkKey_valid _ w Hk); unfold bind at 1; now rewrite (Hpath Hp).
  - destruct (validKey key && validPaths paths) eqn:Hv; simpl.
    + apply andb_true_iff in Hv as [Hk Hp].
      rewrite saveCache_run by assumption; cbv zeta.
      destruct (exitsZero w (mkdirCommand _)); [|reflexivity].
      now destruct (exitsZero w (packCommand _ _ _)).
    + now destruct (saveCache_invalid _ _ w Hv) as [msg ->].
Qed.

(** X5.  How a validated [saveCache] ends.  When [mkdir] fails the call
    throws that failure, having spawned nothing else: the pack command is
    never tried and no directory listing has changed.  When [mkdir]
    succeeds and the pack command fails the call throws the failure of the
    pack command.  Only when both succeed does the call return, and then
    it returns 420.  In every case the commands spawned are a prefix of
    [mkdir], pack, in that order. *)
Theorem saveCache_stops_at_the_first_failed_command
    paths key (w : World)
    (Hpaths : validPaths paths = true) (Hkey : validKey key = true) :
  let cacheDir := cacheDirOf w in
  let mkdir := mkdirCommand cacheDir in
  let pack := packCommand (dirname (firstPath paths)) (basename (firstPath paths))
                          (join cacheDir (filenamify key ++ ".tar.lz4")) in
  let result := saveCache paths key w in
  (exitsZero w mkdir = false ->
     fst result = Thrown (ExecError mkdir) /\
     map fst (spawned (snd result)) = (map fst (spawned w) ++ [mkdir])%list /\
     files (snd result) = files w) /\
  (exitsZero w mkdir = true -> exitsZero w pack = false ->
     fst result = Thrown (ExecError pack) /\
     map fst (spawned (snd result)) = (map fst (spawned w) ++ [mkdir; pack])%list) /\
  (exitsZero w mkdir = true -> exitsZero w pack = true ->
     fst result = Returned 420 /\
     map fst (spawned (snd result)) = (map fst (spawned w) ++ [mkdir; pack])%list) /\
  (forall n, fst result = Returned n -> n = 420).
Proof.
  intros cacheDir mkdir pack result; unfold result.
  rewrite saveCache_run by assumption; cbv zeta.
  fold cacheDir; fold mkdir; fold pack.
  destruct (exitsZero w mkdir) eqn:Hmk; [destruct (exitsZero w pack) eqn:Hpk|].
  - repeat split; try discriminate; simpl.
    + now rewrite !map_app, <- app_assoc.
    + now intros n [= <-].
  - repeat split; try discriminate; simpl.
    now rewrite !map_app, <- app_assoc.
  - repeat split; try discriminate; simpl.
    now rewrite map_app.
Qed.

(** X6.  What [restoreCache] does to the host, whatever its arguments: it
    spawns at most one command, and that command unpacks a file the scan
    listed into [dirname] of the first path; it never makes a directory
    and never packs, and it leaves every directory listing as it was.  A
    key is returned only after that command was spawned, and a call that
    returns no match has changed nothing. *)
Theorem restoreCache_spawns_at_most_one_unpack
    paths primaryKey restoreKeys (w : World) :
  let result := restoreCache paths primaryKey restoreKeys w in
  files (snd result) = files w /\
  (spawned (snd result) = spawned w \/
   exists cacheFile,
     In cacheFile (scanOf w primaryKey restoreKeys) /\
     let cachePath := join (cacheDirOf w) (Fg.path cacheFile) in
     let baseDir := dirname (firstPath paths) in
     spawned (snd result)
       = (spawned w ++ [(unpackCommand cachePath baseDir,
                         UnpackFrom cachePath baseDir)])%list) /\
  (forall key, fst result = Returned (Some key) -> spawned (snd result) <> spawned w) /\
  (fst result = Returned None -> snd result = w).
Proof.
  intros result; unfold result.
  destruct (validKey primaryKey && validPaths paths) eqn:Hv.
  - apply andb_true_iff in Hv as [Hk Hp].
    destruct (locateCacheFile (matchersOf primaryKey restoreKeys)
                              (scanOf w primaryKey restoreKeys))
      as [[k cacheFile]|] eqn:Hloc.
    + rewrite (@restoreCache_hit _ paths primaryKey restoreKeys w
                 k cacheFile Hk Hp Hloc); cbv zeta; simpl.
      split; [reflexivity|]. split; [right; exists cacheFile; split; [|reflexivity]|].
      * rewrite locateCacheFile_first in Hloc.
        destruct (firstWithMatch _ _) as [m|] eqn:E; [|discriminate].
        destruct (isEmpty m); [discriminate|].
        destruct (firstWithMatch_Some _ _ E) as (_ & _ & Hne).
        destruct (latestCacheFile_last_max Hne) as (f & l1 & l2 & Hlatest & Hl & _).
        rewrite Hlatest in Hloc; injection Hloc as _ <-.
        assert (Hf : In f (filter (nameHasMatcher m) (scanOf w primaryKey restoreKeys)))
          by (rewrite Hl; apply in_elt).
        now apply filter_In in Hf.
      * split; [intros _ _; apply snoc_neq|].
        destruct (exitsZero w _); discriminate.
    + rewrite restoreCache_validated by assumption.
      rewrite Hloc; simpl.
      split; [reflexivity|]. split; [now left|]. split; [discriminate | reflexivity].
  - destruct (@restoreCache_invalid _ paths primaryKey restoreKeys w Hv) as [msg ->].
    simpl; split; [reflexivity|]. split; [now left|]. split; discriminate.
Qed.

(** X10.  The empty string as a candidate.  A primary key that
    [filenamify] turns into the empty string never restores anything,
    whatever the restore keys and the directory; and whenever the first
    candidate that has a file is the empty string, the call returns no
    match and changes nothing, even if a later restore key has a file. *)
Theorem empty_candidate_ends_the_search
    paths primaryKey restoreKeys (w : World)
    (Hkey : validKey primaryKey = true) (Hpaths : validPaths paths = true) :
  (filenamify primaryKey = "" ->
     restoreCache paths primaryKey restoreKeys w = (Returned None, w)) /\
  (firstWithMatch (matchersOf primaryKey restoreKeys)
                  (scanOf w primaryKey restoreKeys) = Some "" ->
     restoreCache paths primaryKey restoreKeys w = (Returned None, w)).
Proof.
  assert (Hfirst : firstWithMatch (matchersOf primaryKey restoreKeys)
                                  (scanOf w primaryKey restoreKeys) = Some "" ->
                   restoreCache paths primaryKey restoreKeys w = (Returned None, w)).
  { intros H; rewrite restoreCache_validated by assumption.
    now rewrite locateCacheFile_first, H. }
  split; [|exact Hfirst].
  intros Hempty.
  destruct (scanOf w primaryKey restoreKeys) as [|f fs] eqn:Hscan.
  - rewrite restoreCache_validated by assumption.
    rewrite Hscan, locateCacheFile_first.
    replace (firstWithMatch (matchersOf primaryKey restoreKeys) [])
      with (@None string); [reflexivity|].
    symmetry; apply firstWithMatch_None; reflexivity.
  - apply Hfirst.
    unfold firstWithMatch, matchersOf, candidateKeys.
    destruct restoreKeys as [[|r rs]|]; simpl; rewrite Hempty;
      unfold hasMatch; simpl; now rewrite nameHasMatcher_empty.
Qed.

End Further.

(** ** Saves and restores together *)



Section AfterASave.
Context {imports : Imports}.



End AfterASave.

Section Together.
Context {imports : Imports}.




(** The validation error of a restore does not depend on the host. *)
Lemma restoreCache_invalid_any paths primaryKey restoreKeys :
  validKey primaryKey && validPaths paths = false ->
  exists message, forall w,
    restoreCache paths primaryKey restoreKeys w = (Thrown (ValidationError message), w).
Proof.
  intros H; destruct (validKey primaryKey) eqn:Hk.
  - simpl in H.
    exists "Path Validation Error: At least one directory or file path is required".
    intros w; unfold restoreCache, bind at 1.
    rewrite (checkKey_valid _ w Hk); unfold bind at 1.
    now destruct paths as [[|p ps]|].
  - unfold validKey in Hk.
    destruct (Nat.ltb_spec 255 (String.length primaryKey)) as [Hgt|Hle].
    + eexists; intros w; unfold restoreCache, bind at 1, checkKey.
      destruct (Nat.ltb_spec 255 (String.length primaryKey)); [reflexivity | lia].
    + apply Nat.leb_le in Hle as Hle'; rewrite Hle' in Hk; simpl in Hk.
      eexists; intros w; unfold restoreCache, bind at 1, checkKey, commaFree.
      destruct (Nat.ltb_spec 255 (String.length primaryKey)); [lia|].
      now rewrite Hk.
Qed.

(** The validation error of a save does not depend on the host. *)
Lemma saveCache_invalid_any paths key :
  validKey key && validPaths paths = false ->
  exists message, forall w,
    saveCache paths key w = (Thrown (ValidationError message), w).
Proof.
  intros H; destruct (validPaths paths) eqn:Hp.
  - rewrite andb_true_r in H; unfold validKey in H.
    destruct (Nat.ltb_spec 255 (String.length key)) as [Hgt|Hle].
    + eexists; intros w; unfold saveCache, bind at 1.
      rewrite (checkPaths_valid _ w Hp); unfold bind at 1, checkKey.
      destruct (Nat.ltb_spec 255 (String.length key)); [reflexivity | lia].
    + apply Nat.leb_le in Hle as Hle'; rewrite Hle' in H; simpl in H.
      eexists; intros w; unfold saveCache, bind at 1.
      rewrite (checkPaths_valid _ w Hp); unfold bind at 1, checkKey, commaFree.
      destruct (Nat.ltb_spec 255 (String.length key)); [lia|].
      now rewrite H.
  - exists "Path Validation Error: At least one directory or file path is required".
    intros w; unfold saveCache, bind at 1.
    now destruct paths as [[|p ps]|].
Qed.

(** X12.  An empty [CACHE_DIR] is an unset one.  With the variable set to
    the empty string the cache directory is the default,
    [/media/cache/] joined with the repository, and both entry points end
    as they do with the variable unset, spawning the same command
    lines. *)
Theorem empty_CACHE_DIR_means_the_default
    paths key primaryKey restoreKeys (w : World) :
  let unset := withCacheDir None w in
  let empty := withCacheDir (Some "") w in
  cacheDirOf empty = join "/media/cache/" (orDefault (GITHUB_REPOSITORY w) "") /\
  cacheDirOf unset = join "/media/cache/" (orDefault (GITHUB_REPOSITORY w) "") /\
  fst (saveCache paths key empty) = fst (saveCache paths key unset) /\
  map fst (spawned (snd (saveCache paths key empty)))
    = map fst (spawned (snd (saveCache paths key unset))) /\
  fst (restoreCache paths primaryKey restoreKeys empty)
    = fst (restoreCache paths primaryKey restoreKeys unset) /\
  map fst (spawned (snd (restoreCache paths primaryKey restoreKeys empty)))
    = map fst (spawned (snd (restoreCache paths primaryKey restoreKeys unset))).
Proof.
  intros unset empty.
  split; [reflexivity|]. split; [reflexivity|].
  assert (Hsave : fst (saveCache paths key empty) = fst (saveCache paths key unset) /\
                  map fst (spawned (snd (saveCache paths key empty)))
                  = map fst (spawned (snd (saveCache paths key unset)))).
  { destruct (validKey key && validPaths paths) eqn:Hv.
    - apply andb_true_iff in Hv as [Hk Hp].
      rewrite !saveCache_run by assumption; cbv zeta.
      change (cacheDirOf empty) with (cacheDirOf unset).
      change (exitsZero empty) with (exitsZero unset).
      destruct (exitsZero unset (mkdirCommand _)); [|split; reflexivity].
      destruct (exitsZero unset (packCommand _ _ _)); split; reflexivity.
    - destruct (saveCache_invalid_any paths key Hv) as [msg H].
      rewrite !H; split; reflexivity. }
  destruct Hsave as [Hs1 Hs2].
  split; [exact Hs1|]. split; [exact Hs2|].
  destruct (validKey primaryKey && validPaths paths) eqn:Hv.
  - apply andb_true_iff in Hv as [Hk Hp].
    assert (Hscan : scanOf empty primaryKey restoreKeys
                    = scanOf unset primaryKey restoreKeys) by reflexivity.
    destruct (locateCacheFile (matchersOf primaryKey restoreKeys)
                              (scanOf unset primaryKey restoreKeys))
      as [[k f]|] eqn:Hloc.
    + rewrite (@restoreCache_hit _ paths primaryKey restoreKeys unset k f Hk Hp Hloc).
      rewrite <- Hscan in Hloc.
      rewrite (@restoreCache_hit _ paths primaryKey restoreKeys empty k f Hk Hp Hloc).
      split; reflexivity.
    + rewrite (restoreCache_validated paths primaryKey restoreKeys unset Hk Hp), Hloc.
      rewrite <- Hscan in Hloc.
      rewrite (restoreCache_validated paths primaryKey restoreKeys empty Hk Hp), Hloc.
      split; reflexivity.
  - destruct (restoreCache_invalid_any paths primaryKey restoreKeys Hv) as [msg H].
    rewrite !H; split; reflexivity.
Qed.

End Together.

(** ** Instances on the concrete host *)

Section FurtherOnNode.
Import Fixture.
#[local] Existing Instance Node.imports.

(** X5, an instance.  On a host where [mkdir] fails, a save throws that
    failure and the pack command is not spawned. *)
Lemma saveCache_stops_at_the_first_failed_command_witness :
  let w := mkWorld (Some CACHE_DIR) (Some GITHUB_REPOSITORY) (fun _ => []) 10
             (fun cmd => negb (startsWith "mkdir" cmd)) [] in
  validPaths paths = true /\
  validKey "save-test" = true /\
  outcome (saveCache paths "save-test") w
    = Thrown (ExecError "mkdir -p /repo/__tests__/__tmp__/integration-test") /\
  commands (after (saveCache paths "save-test") w)
    = ["mkdir -p /repo/__tests__/__tmp__/integration-test"].
Proof.
  intros w.
  assert (Hpaths : validPaths paths = true) by reflexivity.
  assert (Hkey : validKey "save-test" = true) by reflexivity.
  destruct (@saveCache_stops_at_the_first_failed_command Node.imports
              paths "save-test" w Hpaths Hkey) as [Hmkdir _].
  destruct (Hmkdir eq_refl) as (Hthrown & Hspawned & _).
  split; [exact Hpaths|]. split; [exact Hkey|].
  split; [exact Hthrown | exact Hspawned].
Defined.



(** X10, an instance.  With the empty primary key nothing is restored,
    though the restore key [foo] has a file. *)
Lemma empty_candidate_ends_the_search_witness :
  let w := host [archive "foo.tar.lz4" 5] 10 in
  validKey "" = true /\
  validPaths paths = true /\
  filenamify "" = "" /\
  restoreCache paths "" (Some ["foo"]) w = (Returned None, w).
Proof.
  intros w.
  assert (Hkey : validKey "" = true) by reflexivity.
  assert (Hpaths : validPaths paths = true) by reflexivity.
  assert (Hempty : filenamify "" = "") by reflexivity.
  destruct (@empty_candidate_ends_the_search Node.imports
              paths "" (Some ["foo"]) w Hkey Hpaths) as [Hprimary _].
  split; [exact Hkey|]. split; [exact Hpaths|]. split; [exact Hempty|].
  exact (Hprimary Hempty).
Defined.


End FurtherOnNode.
